(** * pyface.tasks.tasks_application

    A shallow embedding of [TaskFactory] and [TasksApplication] from
    [pyface/tasks/tasks_application.py], and the properties of task and
    window creation, window-closed bookkeeping, the derived [active_task]
    property and the default menu additions.

    Python objects with identity (tasks, windows) live in stores indexed by
    references; the application's traits are a record; methods that mutate
    or log are computations in a state-and-exception monad over the whole
    world; getters are plain functions. *)

From Stdlib Require Import ZArith.
From stdpp Require Import base option list strings gmap.

(** ** Python outcomes *)

(** An exception instance: its class name and its message. *)
Record exn := Exception { exc_type : string; exc_msg : string }.

(** What a call produces: a value, or a raised exception. *)
Inductive outcome (A : Type) : Type :=
| Returned (a : A)
| Raised (e : exn).
Arguments Returned {A} a.
Arguments Raised {A} e.

(** Keyword arguments ([**traits]), in call order. *)
Definition Kwargs : Type := list (string * string).

(** Object references. *)
Definition TaskRef : Type := nat.
Definition WindowRef : Type := nat.
Definition AppRef : Type := nat.

(** ** The [logging] module-level logger *)

Inductive Level := WARNING | ERROR.

#[global] Instance Level_eq_dec : EqDecision Level.
Proof. solve_decision. Defined.

(** One record handed to the logger: level, message (or format string) and
    the positional arguments left for lazy [%]-formatting. *)
Record LogRecord := { levelname : Level; msg : string; args : list string }.

(** ** Menu schema additions *)

(** The action and group classes imported by [_extra_actions_default]. *)
Inductive ActionClass :=
| CloseActiveWindowAction
| ExitAction
| TaskToggleGroup
| DockPaneToggleGroup
| TaskWindowToggleGroup
| AboutAction.

#[global] Instance ActionClass_eq_dec : EqDecision ActionClass.
Proof. solve_decision. Defined.

(** A [factory=] argument: the bare class, or
    [partial(cls, application=self)]. *)
Record ActionFactory :=
  { action_class : ActionClass; application : option AppRef }.

Definition partial (cls : ActionClass) (self : AppRef) : ActionFactory :=
  {| action_class := cls; application := Some self |}.

Definition bare (cls : ActionClass) : ActionFactory :=
  {| action_class := cls; application := None |}.

Module SchemaAddition.
(** The keywords the module passes to [SchemaAddition(...)]; [None] is a
    keyword that was not given. *)
Record t := mk
  { id : string;
    factory : ActionFactory;
    path : string;
    after : option string;
    absolute_position : option string }.
End SchemaAddition.

(** An entry of [extra_dock_pane_factories]: an opaque callable. *)
Inductive DockPaneFactory := DockPaneCallable (handle : nat).

(** ** Tasks *)

Module Task.
(** Modelled from the spec: the Task class is outside this module; the
    module relies on its [id] and on its two extendable collections
    [extra_actions] and [extra_dock_pane_factories]. *)
Record t := mk
  { id : string;
    extra_actions : list SchemaAddition.t;
    extra_dock_pane_factories : list DockPaneFactory }.
End Task.

(** The store of task objects. *)
Abbreviation TaskHeap := (gmap TaskRef Task.t).

Module TaskFactory.
(** [factory] is the stored callable, from keyword arguments to a Task:
    it builds a new task object from its keyword arguments, or raises. *)
Record t := mk
  { id : string;
    name : string;
    factory : Kwargs -> outcome Task.t }.

(** [create] passes its keyword arguments [traits] on to the stored
    callable and returns what it returns.  The new object gets a
    reference not yet in use. *)
Definition create (self : t) (traits : Kwargs) (h : TaskHeap)
  : outcome TaskRef * TaskHeap :=
  match factory self traits with
  | Returned obj => let r := fresh (dom h) in (Returned r, <[r := obj]> h)
  | Raised e => (Raised e, h)
  end.
End TaskFactory.

(** ** Window layouts and windows *)

Module TaskWindowLayout.
(** Modelled from the spec: a value object with the task IDs a window is
    populated with ([items], read through [get_tasks]) and the window
    geometry; [None] is a geometry left at the class default. *)
Record t := mk
  { items : list string;
    position : option (Z * Z);
    size : option (Z * Z) }.

(** The constructor called with no arguments. *)
Definition new : t := {| items := []; position := None; size := None |}.

Definition get_tasks (self : t) : list string := items self.
End TaskWindowLayout.

Module TaskWindow.
(** Modelled from the spec: a window records the tasks attached with
    [add_task], the layout applied with [set_window_layout], and has an
    [active_task] that the toolkit sets. *)
Record t := mk
  { tasks : list TaskRef;
    active_task : option TaskRef;
    layout : option TaskWindowLayout.t }.

(** The bare window the base application constructs. *)
Definition bare : t :=
  {| tasks := []; active_task := None; layout := None |}.

Definition add_task (task : TaskRef) (self : t) : t :=
  {| tasks := tasks self ++ [task];
     active_task := active_task self;
     layout := layout self |}.

Definition set_window_layout (l : TaskWindowLayout.t) (self : t) : t :=
  {| tasks := tasks self;
     active_task := active_task self;
     layout := Some l |}.

Definition set_active_task (task : option TaskRef) (self : t) : t :=
  {| tasks := tasks self;
     active_task := task;
     layout := layout self |}.
End TaskWindow.

Abbreviation WindowHeap := (gmap WindowRef TaskWindow.t).

(** ** Python list operations used by the module *)

(** [x in l] for a value that may be [None], against a list that holds
    task objects only. *)
Definition py_in (x : option TaskRef) (l : list TaskRef) : bool :=
  match x with
  | Some t => bool_decide (t ∈ l)
  | None => false
  end.

(** [l.remove(x)]: drops the first element equal to [x]; [None] stands for
    the [ValueError] raised when there is none. *)
Fixpoint py_remove (x : TaskRef) (l : list TaskRef) : option (list TaskRef) :=
  match l with
  | [] => None
  | y :: l' =>
      if decide (y = x) then Some l'
      else match py_remove x l' with
           | Some r => Some (y :: r)
           | None => None
           end
  end.

(** ** The application *)

Module TasksApplication.

(** The traits of a [TasksApplication]: those declared in the class, the
    two it inherits from the base application and uses ([windows],
    [active_window]), and the cache slot of the cached property
    [active_task] ([None]: nothing cached). *)
Record t := mk
  { tasks : list TaskRef;
    _traits_cache_active_task : option (option TaskRef);
    task_factories : list TaskFactory.t;
    default_layout : list TaskWindowLayout.t;
    extra_actions : list SchemaAddition.t;
    extra_dock_pane_factories : list DockPaneFactory;
    windows : list WindowRef;
    active_window : option WindowRef }.

(** The world a method runs in: the application, the two object stores
    and what the logger has received, oldest first. *)
Record World := mkWorld
  { app : t;
    task_heap : TaskHeap;
    window_heap : WindowHeap;
    log : list LogRecord }.

(** *** Field updates *)

Definition with_tasks (v : list TaskRef) (a : t) : t :=
  mk v (_traits_cache_active_task a) (task_factories a) (default_layout a)
     (extra_actions a) (extra_dock_pane_factories a) (windows a)
     (active_window a).

Definition with_cache (v : option (option TaskRef)) (a : t) : t :=
  mk (tasks a) v (task_factories a) (default_layout a)
     (extra_actions a) (extra_dock_pane_factories a) (windows a)
     (active_window a).

Definition with_windows (v : list WindowRef) (a : t) : t :=
  mk (tasks a) (_traits_cache_active_task a) (task_factories a)
     (default_layout a) (extra_actions a) (extra_dock_pane_factories a) v
     (active_window a).

Definition with_active_window (v : option WindowRef) (a : t) : t :=
  mk (tasks a) (_traits_cache_active_task a) (task_factories a)
     (default_layout a) (extra_actions a) (extra_dock_pane_factories a)
     (windows a) v.

Definition with_app (f : t -> t) (σ : World) : World :=
  mkWorld (f (app σ)) (task_heap σ) (window_heap σ) (log σ).

Definition with_task_heap (h : TaskHeap) (σ : World) : World :=
  mkWorld (app σ) h (window_heap σ) (log σ).

Definition with_window_heap (h : WindowHeap) (σ : World) : World :=
  mkWorld (app σ) (task_heap σ) h (log σ).

Definition with_log (l : list LogRecord) (σ : World) : World :=
  mkWorld (app σ) (task_heap σ) (window_heap σ) l.

(** *** Computations: state passing with exceptions *)

Definition M (A : Type) : Type := World -> outcome A * World.

Definition ret {A} (a : A) : M A := fun σ => (Returned a, σ).

Definition raise {A} (e : exn) : M A := fun σ => (Raised e, σ).

(** A raised exception skips the rest; the state reached is kept. *)
Definition bind {A B} (m : M A) (k : A -> M B) : M B := fun σ =>
  match m σ with
  | (Returned a, σ') => k a σ'
  | (Raised e, σ') => (Raised e, σ')
  end.

Definition gets {A} (f : World -> A) : M A := fun σ => (Returned (f σ), σ).

Definition modify (f : World -> World) : M unit :=
  fun σ => (Returned tt, f σ).

Declare Scope py_scope.
Delimit Scope py_scope with py.
Notation "x <- m ;; k" := (bind m (fun x => k))
  (at level 100, m at next level, right associativity) : py_scope.
Notation "m ;; k" := (bind m (fun _ => k))
  (at level 100, right associativity) : py_scope.
Open Scope py_scope.

(** *** Collaborators *)

Definition logger_warning (message : string) : M unit :=
  modify (fun σ =>
    with_log (log σ ++ [{| levelname := WARNING; msg := message;
                            args := [] |}]) σ).

Definition logger_error (message : string) (a : list string) : M unit :=
  modify (fun σ =>
    with_log (log σ ++ [{| levelname := ERROR; msg := message;
                            args := a |}]) σ).

(** Modelled from the spec: the base application's window creation
    primitive, which constructs a bare window.  The window is a new
    object; the primitive does not add it to [windows]. *)
Definition GUIApplication_create_window : M WindowRef := fun σ =>
  let w := fresh (dom (window_heap σ)) in
  (Returned w, with_window_heap (<[w := TaskWindow.bare]> (window_heap σ)) σ).

(** Modelled from the spec: the base class's own window-closed handling,
    the teardown that releases the window handle: the window leaves
    [windows]. *)
Definition GUIApplication_on_window_closed (window : WindowRef) : M unit :=
  modify (with_app (fun a =>
    with_windows (filter (fun w => w ≠ window) (windows a)) a)).

(** A method call on a window object. *)
Definition on_window (window : WindowRef) (f : TaskWindow.t -> TaskWindow.t)
  : M unit :=
  modify (fun σ => with_window_heap (alter f window (window_heap σ)) σ).

(** [getattr(window, 'active_task', None)]. *)
Definition getattr_active_task (σ : World) (window : WindowRef)
  : option TaskRef :=
  match window_heap σ !! window with
  | Some w => TaskWindow.active_task w
  | None => None
  end.

(** *** Trait access *)

(** [self.active_window = window].  [active_task] is declared with
    [depends_on='active_window.active_task'], so a change of the active
    window discards the cached value. *)
Definition set_active_window (window : option WindowRef) : M unit :=
  modify (fun σ =>
    if decide (active_window (app σ) = window) then σ
    else with_app (fun a =>
           with_cache None (with_active_window window a)) σ).

(** The toolkit changes a window's [active_task]; when the window is the
    application's active window the cached [active_task] is discarded. *)
Definition window_set_active_task (window : WindowRef)
    (task : option TaskRef) : M unit :=
  modify (fun σ =>
    let σ' := with_window_heap
                (alter (TaskWindow.set_active_task task) window
                       (window_heap σ)) σ in
    if decide (active_window (app σ) = Some window)
    then with_app (with_cache None) σ'
    else σ').

(** *** Private interface *)

Fixpoint _get_task_factory_loop (factories : list TaskFactory.t)
    (id : string) : option TaskFactory.t :=
  match factories with
  | [] => None
  | factory :: rest =>
      if String.eqb (TaskFactory.id factory) id then Some factory
      else _get_task_factory_loop rest id
  end.

Definition _get_task_factory (self : t) (id : string)
  : option TaskFactory.t :=
  _get_task_factory_loop (task_factories self) id.

(** *** Window lifecycle methods *)

(** [task.extra_actions.extend(...)] and
    [task.extra_dock_pane_factories.extend(...)] on a task object. *)
Definition extend_extra_actions (l : list SchemaAddition.t) (task : Task.t)
  : Task.t :=
  {| Task.id := Task.id task;
     Task.extra_actions := Task.extra_actions task ++ l;
     Task.extra_dock_pane_factories := Task.extra_dock_pane_factories task |}.

Definition extend_extra_dock_pane_factories (l : list DockPaneFactory)
    (task : Task.t) : Task.t :=
  {| Task.id := Task.id task;
     Task.extra_actions := Task.extra_actions task;
     Task.extra_dock_pane_factories :=
       Task.extra_dock_pane_factories task ++ l |}.

Definition on_task (task : TaskRef) (f : Task.t -> Task.t) : M unit :=
  modify (fun σ => with_task_heap (alter f task (task_heap σ)) σ).

(** [factory.create] with keyword arguments [traits], run in the world's
    task store. *)
Definition factory_create (factory : TaskFactory.t) (traits : Kwargs)
  : M TaskRef := fun σ =>
  match TaskFactory.create factory traits (task_heap σ) with
  | (r, h) => (r, with_task_heap h σ)
  end.

Definition create_task (id : string) : M (option TaskRef) :=
  factory <- gets (fun σ => _get_task_factory (app σ) id) ;;
  match factory with
  | None =>
      logger_warning ("Could not find task factory " ++ id) ;;
      ret None
  | Some factory =>
      task <- factory_create factory [("id", TaskFactory.id factory)] ;;
      self_extra_actions <- gets (fun σ => extra_actions (app σ)) ;;
      on_task task (extend_extra_actions self_extra_actions) ;;
      self_extra_dock_pane_factories <-
        gets (fun σ => extra_dock_pane_factories (app σ)) ;;
      on_task task
        (extend_extra_dock_pane_factories self_extra_dock_pane_factories) ;;
      ret (Some task)
  end.

(** The [for task_id in layout.get_tasks()] loop of [create_window]. *)
Fixpoint create_window_loop (window : WindowRef) (task_ids : list string)
  : M unit :=
  match task_ids with
  | [] => ret tt
  | task_id :: rest =>
      task <- create_task task_id ;;
      match task with
      | Some task => on_window window (TaskWindow.add_task task)
      | None =>
          logger_error "Missing factory for task with ID %r" [task_id]
      end ;;
      create_window_loop window rest
  end.

(** [create_window(self, layout=None, **kwargs)].  The keyword arguments
    are accepted and not used: the base method is called without
    them. *)
Definition create_window (layout : option TaskWindowLayout.t)
    (kwargs : Kwargs) : M WindowRef :=
  window <- GUIApplication_create_window ;;
  layout <-
    match layout with
    | Some layout =>
        create_window_loop window (TaskWindowLayout.get_tasks layout) ;;
        ret layout
    | None => ret TaskWindowLayout.new
    end ;;
  on_window window (TaskWindow.set_window_layout layout) ;;
  ret window.

Fixpoint _create_windows_loop (layouts : list TaskWindowLayout.t) : M unit :=
  match layouts with
  | [] => ret tt
  | layout :: rest =>
      window <- create_window (Some layout) [] ;;
      set_active_window (Some window) ;;
      _create_windows_loop rest
  end.

Definition _create_windows : M unit :=
  layouts <- gets (fun σ => default_layout (app σ)) ;;
  _create_windows_loop layouts.

(** *** Destruction utilities *)

(** The [windows:closed] listener.  Its [trait], [old] and [new]
    arguments are only passed on to the base class. *)
Definition _on_window_closed (window : WindowRef) : M unit :=
  active <- gets (fun σ => getattr_active_task σ window) ;;
  self_tasks <- gets (fun σ => tasks (app σ)) ;;
  (if py_in active self_tasks then
     match active with
     | Some task =>
         match py_remove task self_tasks with
         | Some l => modify (with_app (with_tasks l))
         | None => raise (Exception "ValueError"
                            "list.remove(x): x not in list")
         end
     | None => ret tt
     end
   else ret tt) ;;
  GUIApplication_on_window_closed window.

(** *** Trait initializers and property getters *)

Definition _default_layout_default (self : t) : list TaskWindowLayout.t :=
  let window_layout := TaskWindowLayout.new in
  let window_layout :=
    match task_factories self with
    | factory :: _ =>
        {| TaskWindowLayout.items := [TaskFactory.id factory];
           TaskWindowLayout.position :=
             TaskWindowLayout.position window_layout;
           TaskWindowLayout.size := TaskWindowLayout.size window_layout |}
    | [] => window_layout
    end in
  [window_layout].

Definition _extra_actions_default (self : AppRef)
  : list SchemaAddition.t :=
  [ {| SchemaAddition.id := "close_action";
       SchemaAddition.factory := partial CloseActiveWindowAction self;
       SchemaAddition.path := "MenuBar/File/close_group";
       SchemaAddition.after := None;
       SchemaAddition.absolute_position := None |};
    {| SchemaAddition.id := "exit_action";
       SchemaAddition.factory := partial ExitAction self;
       SchemaAddition.path := "MenuBar/File/close_group";
       SchemaAddition.after := None;
       SchemaAddition.absolute_position := Some "last" |};
    {| SchemaAddition.id := "TaskToggleGroup";
       SchemaAddition.factory := bare TaskToggleGroup;
       SchemaAddition.path := "MenuBar/View";
       SchemaAddition.after := None;
       SchemaAddition.absolute_position := None |};
    {| SchemaAddition.id := "DockPaneToggleGroup";
       SchemaAddition.factory := bare DockPaneToggleGroup;
       SchemaAddition.path := "MenuBar/View";
       SchemaAddition.after := Some "TaskToggleGroup";
       SchemaAddition.absolute_position := None |};
    {| SchemaAddition.id := "TaskWindowToggleGroup";
       SchemaAddition.factory := partial TaskWindowToggleGroup self;
       SchemaAddition.path := "MenuBar/Window";
       SchemaAddition.after := None;
       SchemaAddition.absolute_position := None |};
    {| SchemaAddition.id := "about_action";
       SchemaAddition.factory := partial AboutAction self;
       SchemaAddition.path := "MenuBar/Help/about_group";
       SchemaAddition.after := None;
       SchemaAddition.absolute_position := None |} ].

(** The getter of the property [active_task]. *)
Definition _get_active_task (σ : World) : option TaskRef :=
  match active_window (app σ) with
  | Some window => getattr_active_task σ window
  | None => None
  end.

(** Reading [self.active_task]: the getter is a [cached_property], so
    its value is kept until a dependency changes. *)
Definition active_task : M (option TaskRef) := fun σ =>
  match _traits_cache_active_task (app σ) with
  | Some v => (Returned v, σ)
  | None =>
      let v := _get_active_task σ in
      (Returned v, with_app (with_cache (Some v)) σ)
  end.

(** [self.active_task = task]: the property has a getter only. *)
Definition set_active_task (task : option TaskRef) : M unit :=
  raise (Exception "TraitError"
           "Cannot set the undefined 'active_task' attribute").

End TasksApplication.

Import TasksApplication.

(** * Specification vocabulary *)

(** ** Factories and ids *)

(** [f] is the first factory of [factories] whose id is [id]. *)
Definition first_with_id (factories : list TaskFactory.t) (id : string)
    (f : TaskFactory.t) : Prop :=
  exists before rest,
    factories = before ++ f :: rest
    /\ TaskFactory.id f = id
    /\ Forall (fun g => TaskFactory.id g <> id) before.

(** Some factory of the list has the id. *)
Definition registered (factories : list TaskFactory.t) (id : string) : Prop :=
  exists f, f ∈ factories /\ TaskFactory.id f = id.

#[global] Instance registered_dec factories id :
  Decision (registered factories id).
Proof. unfold registered. apply list_exist_dec. intros f. apply _. Defined.

(** Every factory that an id of [task_ids] resolves to builds a task when
    invoked with [id=factory.id]. *)
Definition factories_build (factories : list TaskFactory.t)
    (task_ids : list string) : Prop :=
  forall id f,
    id ∈ task_ids ->
    first_with_id factories id f ->
    exists obj, TaskFactory.factory f [("id", TaskFactory.id f)] = Returned obj.

(** ** Created tasks and log records *)

(** A task object after [create_task] has appended the application-wide
    hooks to its own collections. *)
Definition with_hooks (self : TasksApplication.t) (obj : Task.t) : Task.t :=
  {| Task.id := Task.id obj;
     Task.extra_actions := Task.extra_actions obj ++ extra_actions self;
     Task.extra_dock_pane_factories :=
       Task.extra_dock_pane_factories obj ++ extra_dock_pane_factories self |}.

(** The task behind reference [r] in heap [h] is the one the factory for
    [id] builds, with the application's hooks appended. *)
Definition built_for (self : TasksApplication.t) (h : TaskHeap)
    (id : string) (r : TaskRef) : Prop :=
  exists f obj,
    first_with_id (task_factories self) id f
    /\ TaskFactory.factory f [("id", TaskFactory.id f)] = Returned obj
    /\ h !! r = Some (with_hooks self obj).

Definition missing_factory_warning (id : string) : LogRecord :=
  {| levelname := WARNING;
     msg := "Could not find task factory " ++ id;
     args := [] |}.

Definition missing_factory_error (task_id : string) : LogRecord :=
  {| levelname := ERROR;
     msg := "Missing factory for task with ID %r";
     args := [task_id] |}.

(** What reaches the logger for one task ID without a factory: the warning
    of [create_task], then the error of [create_window]. *)
Definition missing_factory_records (task_id : string) : list LogRecord :=
  [missing_factory_warning task_id; missing_factory_error task_id].

(** ** Created windows *)

(** The window [w] of heap [h] was created for [layout] by an application
    with the given factories: it has the layout applied and one task per
    id with a registered factory. *)
Definition created_for (factories : list TaskFactory.t) (h : WindowHeap)
    (layout : TaskWindowLayout.t) (w : WindowRef) : Prop :=
  exists rs,
    h !! w = Some {| TaskWindow.tasks := rs;
                     TaskWindow.active_task := None;
                     TaskWindow.layout := Some layout |}
    /\ length rs
       = length (filter (registered factories)
                   (TaskWindowLayout.get_tasks layout)).

(** Two applications agree on every trait but [active_window] and the
    cache of [active_task]. *)
Definition same_configuration (a b : TasksApplication.t) : Prop :=
  tasks a = tasks b
  /\ task_factories a = task_factories b
  /\ default_layout a = default_layout b
  /\ extra_actions a = extra_actions b
  /\ extra_dock_pane_factories a = extra_dock_pane_factories b
  /\ windows a = windows b.

(** The active window once the windows [ws] have been created in order,
    starting from active window [before]. *)
Definition active_after (before : option WindowRef) (ws : list WindowRef)
  : option WindowRef :=
  match last ws with
  | Some w => Some w
  | None => before
  end.

(** ** Properties kept by the methods, and the closed event *)

(** [m] keeps [P]: in whatever way [m] ends, [P] holds again. *)
Definition preserves {A} (P : World -> Prop) (m : M A) : Prop :=
  forall σ, P σ -> P (snd (m σ)).

(** The [tasks] list once the window [w] has closed. *)
Definition tasks_after_close (σ : World) (w : WindowRef) : list TaskRef :=
  match getattr_active_task σ w with
  | Some task =>
      match py_remove task (tasks (app σ)) with
      | Some l => l
      | None => tasks (app σ)
      end
  | None => tasks (app σ)
  end.



(** ** The cached property and the operations of an application *)

(** The cache slot of [active_task] is empty or holds what the getter
    computes in the current state. *)
Definition cache_ok (σ : World) : Prop :=
  match _traits_cache_active_task (app σ) with
  | Some v => v = _get_active_task σ
  | None => True
  end.

(** What the application goes through: calls of its methods, the closed
    event of a window, assignments to [active_window], the toolkit changing
    a window's active task, and reads of and assignments to
    [active_task]. *)
Inductive Op :=
| OpCreateTask (id : string)
| OpCreateWindow (layout : option TaskWindowLayout.t) (kwargs : Kwargs)
| OpCreateWindows
| OpWindowClosed (w : WindowRef)
| OpSetActiveWindow (w : option WindowRef)
| OpWindowSetActiveTask (w : WindowRef) (task : option TaskRef)
| OpReadActiveTask
| OpAssignActiveTask (task : option TaskRef).

(** The state an operation leaves, whether it returns or raises. *)
Definition step (op : Op) (σ : World) : World :=
  match op with
  | OpCreateTask id => snd (create_task id σ)
  | OpCreateWindow layout kwargs => snd (create_window layout kwargs σ)
  | OpCreateWindows => snd (_create_windows σ)
  | OpWindowClosed w => snd (_on_window_closed w σ)
  | OpSetActiveWindow w => snd (set_active_window w σ)
  | OpWindowSetActiveTask w task => snd (window_set_active_task w task σ)
  | OpReadActiveTask => snd (active_task σ)
  | OpAssignActiveTask task => snd (set_active_task task σ)
  end.

Definition run (ops : list Op) (σ : World) : World :=
  foldl (fun σ op => step op σ) σ ops.

(** ** Schema additions by class *)

(** The entries of a list of additions whose factory is of class [cls]. *)
Definition of_class (cls : ActionClass) (l : list SchemaAddition.t)
  : list SchemaAddition.t :=
  filter (fun a => action_class (SchemaAddition.factory a) = cls) l.

(** * Sample applications *)

(** The value of a keyword argument, the empty string when it is not
    given. *)
Definition kwarg (key : string) (traits : Kwargs) : string :=
  match list_find (fun kv => String.eqb kv.1 key = true) traits with
  | Some (_, kv) => kv.2
  | None => ""
  end.

(** A Task class used as a factory: it takes its [id] from the keyword
    arguments. *)
Definition Task_class (traits : Kwargs) : outcome Task.t :=
  Returned {| Task.id := kwarg "id" traits;
              Task.extra_actions := [];
              Task.extra_dock_pane_factories := [] |}.

(** A callable that always raises. *)
Definition broken_class (traits : Kwargs) : outcome Task.t :=
  Raised (Exception "RuntimeError" "cannot build the task").

Definition factory_a : TaskFactory.t := TaskFactory.mk "a" "Task A" Task_class.
Definition factory_a' : TaskFactory.t :=
  TaskFactory.mk "a" "Other A" Task_class.
Definition factory_c : TaskFactory.t := TaskFactory.mk "c" "Task C" Task_class.
Definition factory_broken : TaskFactory.t :=
  TaskFactory.mk "a" "Broken" broken_class.

Definition layout_ab : TaskWindowLayout.t :=
  TaskWindowLayout.mk ["a"; "b"] None None.

(** An application just constructed with the given factories and startup
    layouts: no task, no window, nothing logged. *)
Definition new_app (factories : list TaskFactory.t)
    (layouts : list TaskWindowLayout.t) : World :=
  {| app := {| tasks := [];
               _traits_cache_active_task := None;
               task_factories := factories;
               default_layout := layouts;
               extra_actions := _extra_actions_default 0;
               extra_dock_pane_factories := [DockPaneCallable 7];
               windows := [];
               active_window := None |};
     task_heap := ∅;
     window_heap := ∅;
     log := [] |}.





(** A run in which a value is cached for one window and the active window
    then changes: the read follows the new window. *)
Definition switching_ops : list Op :=
  [ OpCreateWindows;
    OpWindowSetActiveTask 0 (Some 0);
    OpReadActiveTask;
    OpCreateWindow None [];
    OpWindowSetActiveTask 1 (Some 5);
    OpReadActiveTask;
    OpSetActiveWindow (Some 1) ].

(** * Vocabulary of the further properties *)



(** The callable of [f] behaves like a Task class: it always builds a task
    and gives it the [id] it is passed as a keyword. *)
Definition takes_id_keyword (f : TaskFactory.t) : Prop :=
  forall traits,
    exists obj,
      TaskFactory.factory f traits = Returned obj
      /\ Task.id obj = kwarg "id" traits.

(** An application with the default startup layout of its factories. *)
Definition default_app (factories : list TaskFactory.t) : World :=
  new_app factories
    (_default_layout_default (app (new_app factories []))).

(** * Properties *)

(** ** The methods on sample applications *)

Example create_task_a :
  fst (create_task "a" (new_app [factory_a] [])) = Returned (Some 0).
Proof. reflexivity. Qed.

Example create_task_a_object :
  task_heap (snd (create_task "a" (new_app [factory_a] []))) !! 0
  = Some {| Task.id := "a";
            Task.extra_actions := _extra_actions_default 0;
            Task.extra_dock_pane_factories := [DockPaneCallable 7] |}.
Proof. vm_compute. reflexivity. Qed.

Example create_task_missing :
  create_task "b" (new_app [factory_a] [])
  = (Returned None,
     with_log [{| levelname := WARNING;
                  msg := "Could not find task factory b";
                  args := [] |}] (new_app [factory_a] [])).
Proof. reflexivity. Qed.

Example create_window_ab_tasks :
  let '(_, σ) := create_window (Some layout_ab) [] (new_app [factory_a] []) in
  TaskWindow.tasks <$> window_heap σ !! 0 = Some [0]
  /\ filter (fun r => levelname r = ERROR) (log σ)
     = [{| levelname := ERROR;
           msg := "Missing factory for task with ID %r";
           args := ["b"] |}].
Proof. vm_compute. split; reflexivity. Qed.

(** The default layout is a single window layout with the id of the first
    registered factory, and an empty one when no factory is registered. *)
Lemma default_layout_default_tasks (self : TasksApplication.t) :
  TaskWindowLayout.get_tasks <$> _default_layout_default self
  = [match task_factories self with
     | factory :: _ => [TaskFactory.id factory]
     | [] => []
     end].
Proof. unfold _default_layout_default. by destruct (task_factories self). Qed.

(** ** Factory lookup *)

Section Lookup.
Implicit Types (factories : list TaskFactory.t) (id : string).

Lemma lookup_loop_Some factories id f :
  _get_task_factory_loop factories id = Some f
  <-> first_with_id factories id f.
Proof.
  induction factories as [|g factories IH]; simpl.
  - split; [discriminate|].
    intros (before & rest & Heq & _). by destruct before.
  - destruct (String.eqb_spec (TaskFactory.id g) id) as [Hid|Hid].
    + split.
      * intros [= <-]. exists [], factories. by repeat split.
      * intros (before & rest & Heq & Hf & Hbefore).
        destruct before as [|g' before]; simpl in Heq.
        -- by injection Heq as ->.
        -- injection Heq as -> _. by inversion Hbefore.
    + rewrite IH. split.
      * intros (before & rest & -> & Hf & Hbefore).
        exists (g :: before), rest. repeat split; [done|].
        by constructor.
      * intros (before & rest & Heq & Hf & Hbefore).
        destruct before as [|g' before]; simpl in Heq.
        -- injection Heq as -> _. congruence.
        -- injection Heq as -> ->. exists before, rest.
           repeat split; [done|]. by inversion Hbefore.
Qed.

Lemma lookup_loop_None factories id :
  _get_task_factory_loop factories id = None
  <-> Forall (fun g => TaskFactory.id g <> id) factories.
Proof.
  induction factories as [|g factories IH]; simpl.
  - split; [constructor|done].
  - destruct (String.eqb_spec (TaskFactory.id g) id) as [Hid|Hid].
    + split; [discriminate|]. by inversion 1.
    + rewrite IH. split; [by constructor|by inversion 1].
Qed.

(** Some factory has the id exactly when there is a first one. *)
Lemma exists_first_with_id factories id :
  (exists f, f ∈ factories /\ TaskFactory.id f = id)
  <-> exists f, first_with_id factories id f.
Proof.
  split.
  - intros (f & Hin & Hid).
    destruct (_get_task_factory_loop factories id) as [g|] eqn:Hg.
    + exists g. by apply lookup_loop_Some.
    + apply lookup_loop_None in Hg. rewrite Forall_forall in Hg.
      by destruct (Hg f Hin).
  - intros (f & before & rest & -> & Hid & _). exists f. split; [|done].
    apply elem_of_app. right. by left.
Qed.

Lemma first_with_id_unique factories id f g :
  first_with_id factories id f -> first_with_id factories id g -> f = g.
Proof.
  intros Hf%lookup_loop_Some Hg%lookup_loop_Some. congruence.
Qed.
End Lookup.

(** C5. [_get_task_factory(id)] is a first-match linear lookup by equality
    on [id]: it returns a factory exactly when that factory is the first in
    [task_factories] whose id equals the argument, so of two factories
    sharing the id the earlier one in list order is returned; it returns
    [None] exactly when no factory in the list has the id. *)
Theorem get_task_factory_first_match (self : TasksApplication.t) (id : string) :
  (forall f, _get_task_factory self id = Some f
             <-> first_with_id (task_factories self) id f)
  /\ (forall before f between g rest,
        task_factories self = before ++ f :: between ++ g :: rest ->
        Forall (fun h => TaskFactory.id h <> id) before ->
        TaskFactory.id f = id -> TaskFactory.id g = id ->
        _get_task_factory self id = Some f)
  /\ (_get_task_factory self id = None
      <-> forall f, f ∈ task_factories self -> TaskFactory.id f <> id).
Proof.
  unfold _get_task_factory. split; [|split].
  - intros f. apply lookup_loop_Some.
  - intros before f between g rest Heq Hbefore Hf _.
    apply lookup_loop_Some. by exists before, (between ++ g :: rest).
  - rewrite lookup_loop_None. apply Forall_forall.
Qed.

Example get_task_factory_tie :
  _get_task_factory (app (new_app [factory_c; factory_a; factory_a'] [])) "a"
  = Some factory_a.
Proof. reflexivity. Qed.

(** ** Task creation *)

Section CreateTask.
Implicit Types (σ : World) (id : string) (f : TaskFactory.t).

Lemma create_task_missing_eq σ id :
  _get_task_factory (app σ) id = None ->
  create_task id σ
  = (Returned None, with_log (log σ ++ [missing_factory_warning id]) σ).
Proof.
  intros H. unfold create_task, bind, gets. by rewrite H.
Qed.

Lemma create_task_raised_eq σ id f e :
  _get_task_factory (app σ) id = Some f ->
  TaskFactory.factory f [("id", TaskFactory.id f)] = Raised e ->
  create_task id σ = (Raised e, σ).
Proof.
  intros H He.
  unfold create_task, bind, gets, factory_create, TaskFactory.create.
  rewrite H, He. by destruct σ.
Qed.

Lemma create_task_returned_eq σ id f obj :
  _get_task_factory (app σ) id = Some f ->
  TaskFactory.factory f [("id", TaskFactory.id f)] = Returned obj ->
  create_task id σ
  = (Returned (Some (fresh (dom (task_heap σ)))),
     with_task_heap
       (<[fresh (dom (task_heap σ)) := with_hooks (app σ) obj]> (task_heap σ))
       σ).
Proof.
  intros H Hobj.
  unfold create_task, bind, gets, factory_create, TaskFactory.create,
    on_task, modify, ret.
  rewrite H, Hobj. cbn.
  by rewrite !alter_insert_eq.
Qed.

(** The three outcomes of [create_task], by what the lookup and the
    factory's callable give. *)
Lemma create_task_cases σ id :
  (_get_task_factory (app σ) id = None
   /\ create_task id σ
      = (Returned None, with_log (log σ ++ [missing_factory_warning id]) σ))
  \/ (exists f e,
        _get_task_factory (app σ) id = Some f
        /\ TaskFactory.factory f [("id", TaskFactory.id f)] = Raised e
        /\ create_task id σ = (Raised e, σ))
  \/ (exists f obj,
        _get_task_factory (app σ) id = Some f
        /\ TaskFactory.factory f [("id", TaskFactory.id f)] = Returned obj
        /\ create_task id σ
           = (Returned (Some (fresh (dom (task_heap σ)))),
              with_task_heap
                (<[fresh (dom (task_heap σ)) := with_hooks (app σ) obj]>
                   (task_heap σ)) σ)).
Proof.
  destruct (_get_task_factory (app σ) id) as [f|] eqn:Hf.
  - destruct (TaskFactory.factory f [("id", TaskFactory.id f)])
      as [obj|e] eqn:Hobj.
    + right; right. exists f, obj. eauto using create_task_returned_eq.
    + right; left. exists f, e. eauto using create_task_raised_eq.
  - left. eauto using create_task_missing_eq.
Qed.

Lemma fresh_task_ref σ : task_heap σ !! fresh (dom (task_heap σ)) = None.
Proof. apply not_elem_of_dom, is_fresh. Qed.
End CreateTask.



(** ** Failure of a factory's callable *)



(** [TaskFactory.create] passes on a failure whatever the keyword
    arguments are. *)
Lemma create_raised_eq (f : TaskFactory.t) (traits : Kwargs) (e : exn)
    (h : TaskHeap) :
  TaskFactory.factory f traits = Raised e ->
  TaskFactory.create f traits h = (Raised e, h).
Proof. intros H. unfold TaskFactory.create. by rewrite H. Qed.

(** ** Window creation *)

Lemma registered_lookup (factories : list TaskFactory.t) (id : string) :
  registered factories id <-> is_Some (_get_task_factory_loop factories id).
Proof.
  unfold registered.
  rewrite exists_first_with_id. unfold is_Some.
  by setoid_rewrite lookup_loop_Some.
Qed.


Section CreateWindow.
Implicit Types (σ : World) (w : WindowRef) (wo : TaskWindow.t).

Lemma fresh_window_ref σ :
  window_heap σ !! fresh (dom (window_heap σ)) = None.
Proof. apply not_elem_of_dom, is_fresh. Qed.

Lemma create_window_None_eq σ kwargs :
  create_window None kwargs σ
  = (Returned (fresh (dom (window_heap σ))),
     with_window_heap
       (<[fresh (dom (window_heap σ)) :=
            {| TaskWindow.tasks := [];
               TaskWindow.active_task := None;
               TaskWindow.layout := Some TaskWindowLayout.new |}]>
          (window_heap σ)) σ).
Proof.
  unfold create_window, bind, GUIApplication_create_window, on_window,
    modify, ret. cbn.
  by rewrite alter_insert_eq.
Qed.

Lemma built_for_weaken self (h h' : TaskHeap) id r :
  h ⊆ h' -> built_for self h id r -> built_for self h' id r.
Proof.
  intros Hsub (f & obj & Hf & Hobj & Hr). exists f, obj.
  repeat split; [done..|]. by eapply lookup_weaken.
Qed.

(** The loop over the layout's task IDs, when every factory involved
    builds its task. *)
Lemma create_window_loop_spec task_ids : forall σ w wo,
  window_heap σ !! w = Some wo ->
  factories_build (task_factories (app σ)) task_ids ->
  exists rs σ',
    create_window_loop w task_ids σ = (Returned tt, σ')
    /\ app σ' = app σ
    /\ window_heap σ'
       = <[w := {| TaskWindow.tasks := TaskWindow.tasks wo ++ rs;
                   TaskWindow.active_task := TaskWindow.active_task wo;
                   TaskWindow.layout := TaskWindow.layout wo |}]>
           (window_heap σ)
    /\ log σ'
       = log σ ++ flat_map missing_factory_records
                    (filter
                       (fun id => ~ registered (task_factories (app σ)) id)
                       task_ids)
    /\ task_heap σ ⊆ task_heap σ'
    /\ Forall (fun r => task_heap σ !! r = None) rs
    /\ NoDup rs
    /\ Forall2 (built_for (app σ) (task_heap σ'))
         (filter (registered (task_factories (app σ))) task_ids) rs.
Proof.
  induction task_ids as [|id task_ids IH]; intros σ w wo Hw Hbuild.
  - exists [], σ. cbn. rewrite app_nil_r.
    repeat split; try done; try constructor.
    + destruct wo. by rewrite insert_id.
    + by rewrite app_nil_r.
  - assert (Hbuild' : factories_build (task_factories (app σ)) task_ids).
    { intros id' f Hin. apply Hbuild. by right. }
    cbn [create_window_loop]. unfold bind at 1.
    destruct (create_task_cases σ id)
      as [[Hf Heq]|[(f & e & Hf & He & _)|(f & obj & Hf & Hobj & Heq)]].
    + (* no factory: warning, error, and on to the rest *)
      rewrite Heq. unfold bind at 1. cbn [logger_error modify].
      set (σ1 := with_log _ _).
      destruct (IH σ1 w wo Hw Hbuild')
        as (rs & σ' & Hrun & Happ & Hwh & Hlog & Hsub & Hfresh & Hnd & Hall).
      exists rs, σ'. rewrite Hrun.
      assert (Hnot : ~ registered (task_factories (app σ)) id).
      { rewrite registered_lookup. unfold _get_task_factory in Hf.
        rewrite Hf. by intros [? ?]. }
      rewrite !filter_cons. repeat case_decide; try done.
      subst σ1. cbn in *.
      repeat split; try done.
      rewrite Hlog. by rewrite <- !app_assoc.
    + (* the callable raises: excluded by the hypothesis *)
      destruct (Hbuild id f) as [obj Hobj]; [by left| |congruence].
      by apply lookup_loop_Some.
    + (* a task is built and attached *)
      rewrite Heq. unfold bind at 1. cbn [on_window modify].
      set (r := fresh (dom (task_heap σ))) in *.
      set (σ1 := with_window_heap _ _).
      assert (Hw1 : window_heap σ1 !! w = Some (TaskWindow.add_task r wo)).
      { subst σ1. cbn. by rewrite lookup_alter_eq, Hw. }
      destruct (IH σ1 w _ Hw1 Hbuild')
        as (rs & σ' & Hrun & Happ & Hwh & Hlog & Hsub & Hfresh & Hnd & Hall).
      exists (r :: rs), σ'. rewrite Hrun.
      assert (Hreg : registered (task_factories (app σ)) id).
      { rewrite registered_lookup. unfold _get_task_factory in Hf.
        rewrite Hf. by eexists. }
      rewrite !filter_cons. repeat case_decide; try done.
      subst σ1. cbn in *.
      assert (Hr : task_heap σ !! r = None) by apply fresh_task_ref.
      assert (Hsub0 : task_heap σ ⊆ task_heap σ').
      { etrans; [|exact Hsub]. by apply insert_subseteq. }
      repeat split; try done.
      * rewrite Hwh, insert_alter_eq. by rewrite <- app_assoc.
      * constructor; [done|].
        eapply Forall_impl; [exact Hfresh|]. cbn.
        intros r' Hr'. apply lookup_insert_None in Hr'. tauto.
      * constructor; [|done].
        intros Hin. rewrite Forall_forall in Hfresh.
        specialize (Hfresh r Hin). by rewrite lookup_insert_eq in Hfresh.
      * constructor; [|done].
        exists f, obj. repeat split; [by apply lookup_loop_Some|done|].
        eapply lookup_weaken; [|exact Hsub]. apply lookup_insert_eq.
Qed.
End CreateWindow.


(** C6. [create_window(None)] creates a window that is new, has zero
    attached tasks, and has had a fresh empty [TaskWindowLayout], carrying
    only the default size and position, applied to it with
    [set_window_layout]; it returns that window and changes nothing
    else. *)
Theorem create_window_no_layout (σ : World) (kwargs : Kwargs) :
  exists w,
    window_heap σ !! w = None
    /\ create_window None kwargs σ
       = (Returned w,
          with_window_heap
            (<[w := TaskWindow.set_window_layout
                      {| TaskWindowLayout.items := [];
                         TaskWindowLayout.position := None;
                         TaskWindowLayout.size := None |}
                      {| TaskWindow.tasks := [];
                         TaskWindow.active_task := None;
                         TaskWindow.layout := None |}]>
               (window_heap σ)) σ).
Proof.
  exists (fresh (dom (window_heap σ))).
  split; [apply fresh_window_ref|apply create_window_None_eq].
Qed.

(** What [create_window] does with a layout whose factories build their
    tasks, as far as the window store is concerned. *)
Lemma create_window_layout_run (σ : World) (layout : TaskWindowLayout.t)
    (kwargs : Kwargs)
    (Hbuild : factories_build (task_factories (app σ))
                (TaskWindowLayout.get_tasks layout)) :
  exists w rs σ',
    create_window (Some layout) kwargs σ = (Returned w, σ')
    /\ window_heap σ !! w = None
    /\ window_heap σ'
       = <[w := {| TaskWindow.tasks := rs;
                   TaskWindow.active_task := None;
                   TaskWindow.layout := Some layout |}]> (window_heap σ)
    /\ length rs
       = length (filter (registered (task_factories (app σ)))
                   (TaskWindowLayout.get_tasks layout))
    /\ app σ' = app σ.
Proof.
  unfold create_window, bind at 1, GUIApplication_create_window.
  set (w := fresh (dom (window_heap σ))).
  set (σ1 := with_window_heap _ σ).
  assert (Hw1 : window_heap σ1 !! w = Some TaskWindow.bare).
  { subst σ1. cbn. apply lookup_insert_eq. }
  destruct (create_window_loop_spec (TaskWindowLayout.get_tasks layout)
              σ1 w _ Hw1 Hbuild)
    as (rs & σ' & Hrun & Happ & Hwh & _ & _ & _ & _ & Hall).
  exists w, rs. eexists.
  unfold bind. rewrite Hrun. cbn [ret on_window modify].
  subst σ1. cbn in *.
  split_and!; try done.
  - apply fresh_window_ref.
  - by rewrite Hwh, alter_insert_eq, insert_insert_eq.
  - symmetry. by apply Forall2_length in Hall.
Qed.




(** ** Startup windows *)

Section CreateWindows.
Implicit Types (σ : World) (layouts : list TaskWindowLayout.t).

Lemma set_active_window_eq σ w :
  exists σ',
    set_active_window (Some w) σ = (Returned tt, σ')
    /\ active_window (app σ') = Some w
    /\ same_configuration (app σ') (app σ)
    /\ task_heap σ' = task_heap σ
    /\ window_heap σ' = window_heap σ
    /\ log σ' = log σ.
Proof.
  unfold set_active_window, modify. eexists. split; [done|].
  case_decide; unfold same_configuration; cbn; by repeat split.
Qed.

Lemma active_after_cons before w ws :
  active_after before (w :: ws) = active_after (Some w) ws.
Proof. unfold active_after. rewrite last_cons. by destruct (last ws). Qed.

Lemma created_for_weaken factories (h h' : WindowHeap) layout w :
  h ⊆ h' -> created_for factories h layout w ->
  created_for factories h' layout w.
Proof.
  intros Hsub (rs & Hw & Hlen). exists rs. split; [|done].
  by eapply lookup_weaken.
Qed.

Lemma _create_windows_loop_spec layouts : forall σ,
  (forall layout, layout ∈ layouts ->
     factories_build (task_factories (app σ))
       (TaskWindowLayout.get_tasks layout)) ->
  exists ws σ',
    _create_windows_loop layouts σ = (Returned tt, σ')
    /\ Forall2 (created_for (task_factories (app σ)) (window_heap σ'))
         layouts ws
    /\ NoDup ws
    /\ Forall (fun w => window_heap σ !! w = None) ws
    /\ window_heap σ ⊆ window_heap σ'
    /\ dom (window_heap σ') = list_to_set ws ∪ dom (window_heap σ)
    /\ active_window (app σ') = active_after (active_window (app σ)) ws
    /\ same_configuration (app σ') (app σ)
    /\ (forall done todo,
          layouts = done ++ todo ->
          exists σ1,
            _create_windows_loop done σ = (Returned tt, σ1)
            /\ active_window (app σ1)
               = active_after (active_window (app σ))
                   (take (length done) ws)).
Proof.
  induction layouts as [|layout layouts IH]; intros σ Hbuild.
  - exists [], σ. cbn. repeat split; try done; try constructor.
    + by rewrite (left_id_L ∅ (∪)).
    + intros done todo Heq. symmetry in Heq.
      apply app_eq_nil in Heq as [-> _]. by exists σ.
  - destruct (create_window_layout_run σ layout [])
      as (w & rs & σ1 & Hrun & Hw & Hwh & Hlen & Happ).
    { apply Hbuild. by left. }
    destruct (set_active_window_eq σ1 w)
      as (σ2 & Hset & Hactive & Hsame & Hth & Hwh2 & _).
    assert (Hfac : task_factories (app σ2) = task_factories (app σ)).
    { destruct Hsame as (_ & -> & _). by rewrite Happ. }
    destruct (IH σ2) as (ws & σ' & Hloop & Hcreated & Hnd & Hfresh & Hsub
                            & Hdom & Hact & Hsame' & Hprefix).
    { intros layout' Hin. rewrite Hfac. apply Hbuild. by right. }
    assert (Hstep : forall rest,
              _create_windows_loop (layout :: rest) σ
              = _create_windows_loop rest σ2).
    { intros rest. cbn [_create_windows_loop]. unfold bind at 1.
      rewrite Hrun. unfold bind at 1. by rewrite Hset. }
    rewrite Hwh2, Hwh in Hsub, Hfresh, Hdom.
    assert (Hsub0 : window_heap σ ⊆ window_heap σ').
    { etrans; [|exact Hsub]. by apply insert_subseteq. }
    exists (w :: ws), σ'. rewrite Hstep.
    split_and!; try done.
    + constructor; [|by rewrite <- Hfac].
      exists rs. split.
      * eapply lookup_weaken; [|exact Hsub]. apply lookup_insert_eq.
      * done.
    + constructor; [|done].
      intros Hin. rewrite Forall_forall in Hfresh.
      specialize (Hfresh w Hin). by rewrite lookup_insert_eq in Hfresh.
    + constructor; [done|].
      eapply Forall_impl; [exact Hfresh|]. cbn.
      intros w' Hw'. apply lookup_insert_None in Hw'. tauto.
    + rewrite Hdom, dom_insert_L, list_to_set_cons.
      rewrite (assoc_L (∪) (list_to_set ws)).
      by rewrite (comm_L (∪) (list_to_set ws) {[w]}).
    + by rewrite active_after_cons, Hact, Hactive.
    + destruct Hsame' as (? & ? & ? & ? & ? & ?).
      destruct Hsame as (? & ? & ? & ? & ? & ?).
      rewrite Happ in *. unfold same_configuration.
      split_and!; congruence.
    + intros [|layout' done] todo Heq.
      * exists σ. by cbn.
      * injection Heq as <- ->.
        destruct (Hprefix done todo eq_refl) as (σ3 & Hrun3 & Hact3).
        exists σ3. rewrite Hstep. split; [done|].
        cbn [length take]. by rewrite active_after_cons, Hact3, Hactive.
Qed.
End CreateWindows.





(** ** Properties of the world kept by the lifecycle methods *)

Section Preservation.
Context (P : World -> Prop).

Lemma preserves_ret {A} (a : A) : preserves P (ret a).
Proof. by intros σ. Qed.

Lemma preserves_raise {A} (e : exn) : preserves P (raise (A:=A) e).
Proof. by intros σ. Qed.

Lemma preserves_gets {A} (f : World -> A) : preserves P (gets f).
Proof. by intros σ. Qed.

Lemma preserves_modify (f : World -> World) :
  (forall σ, P σ -> P (f σ)) -> preserves P (modify f).
Proof. intros Hf σ. apply Hf. Qed.

Lemma preserves_bind {A B} (m : M A) (k : A -> M B) :
  preserves P m -> (forall a, preserves P (k a)) -> preserves P (bind m k).
Proof.
  intros Hm Hk σ HP. unfold bind. specialize (Hm σ HP).
  destruct (m σ) as [[a|e] σ']; cbn in *; [by apply Hk|done].
Qed.

(** [P] does not look at the task store or at the log, and is kept when
    a bare window is allocated, when a task is attached to a window or a
    layout applied to it, and when the active window is set. *)
Hypothesis P_task_heap : forall h σ, P σ -> P (with_task_heap h σ).
Hypothesis P_log : forall l σ, P σ -> P (with_log l σ).
Hypothesis P_new_window : forall σ,
  P σ ->
  P (with_window_heap
       (<[fresh (dom (window_heap σ)) := TaskWindow.bare]> (window_heap σ))
       σ).
Hypothesis P_add_task : forall w task σ,
  P σ ->
  P (with_window_heap
       (alter (TaskWindow.add_task task) w (window_heap σ)) σ).
Hypothesis P_set_window_layout : forall w layout σ,
  P σ ->
  P (with_window_heap
       (alter (TaskWindow.set_window_layout layout) w (window_heap σ)) σ).
Hypothesis P_set_active_window : forall w,
  preserves P (set_active_window w).

Lemma factory_create_preserves f traits :
  preserves P (factory_create f traits).
Proof.
  intros σ HP. unfold factory_create, TaskFactory.create.
  destruct (TaskFactory.factory f traits); cbn; by apply P_task_heap.
Qed.

Lemma create_task_preserves id : preserves P (create_task id).
Proof.
  unfold create_task.
  apply preserves_bind; [apply preserves_gets|]. intros [f|].
  - apply preserves_bind; [apply factory_create_preserves|]. intros task.
    apply preserves_bind; [apply preserves_gets|]. intros acts.
    apply preserves_bind.
    { apply preserves_modify. intros σ. apply P_task_heap. }
    intros _. apply preserves_bind; [apply preserves_gets|]. intros panes.
    apply preserves_bind; [|intros; apply preserves_ret].
    apply preserves_modify. intros σ. apply P_task_heap.
  - apply preserves_bind; [|intros; apply preserves_ret].
    apply preserves_modify. intros σ. apply P_log.
Qed.

Lemma create_window_loop_preserves w task_ids :
  preserves P (create_window_loop w task_ids).
Proof.
  induction task_ids as [|id task_ids IH]; [apply preserves_ret|].
  cbn [create_window_loop].
  apply preserves_bind; [apply create_task_preserves|]. intros [task|].
  - apply preserves_bind; [|by intros].
    apply preserves_modify. intros σ. apply P_add_task.
  - apply preserves_bind; [|by intros].
    apply preserves_modify. intros σ. apply P_log.
Qed.

Lemma create_window_preserves layout kwargs :
  preserves P (create_window layout kwargs).
Proof.
  unfold create_window. apply preserves_bind.
  { intros σ. apply P_new_window. }
  intros w. apply preserves_bind.
  - destruct layout as [layout|]; [|apply preserves_ret].
    apply preserves_bind; [apply create_window_loop_preserves|].
    intros; apply preserves_ret.
  - intros l. apply preserves_bind; [|intros; apply preserves_ret].
    apply preserves_modify. intros σ. apply P_set_window_layout.
Qed.

Lemma _create_windows_loop_preserves layouts :
  preserves P (_create_windows_loop layouts).
Proof.
  induction layouts as [|layout layouts IH]; [apply preserves_ret|].
  cbn [_create_windows_loop].
  apply preserves_bind; [apply create_window_preserves|]. intros w.
  apply preserves_bind; [apply P_set_active_window|]. by intros.
Qed.

Lemma _create_windows_preserves : preserves P _create_windows.
Proof.
  unfold _create_windows.
  apply preserves_bind; [apply preserves_gets|]. intros layouts.
  apply _create_windows_loop_preserves.
Qed.
End Preservation.

(** ** The window-closed listener *)

Section Remove.
Implicit Types (x : TaskRef) (l : list TaskRef).

Lemma py_remove_None x l : py_remove x l = None <-> x ∉ l.
Proof.
  induction l as [|y l IH]; cbn.
  - split; [intros _; apply not_elem_of_nil|done].
  - case_decide as Hy.
    + subst. split; [done|]. intros []. by left.
    + rewrite not_elem_of_cons. destruct (py_remove x l).
      * split; [done|]. intros [_ Hl]. by apply IH in Hl.
      * split; [|done]. intros _. split; [congruence|]. by apply IH.
Qed.

Lemma py_remove_Some x l l' :
  py_remove x l = Some l'
  <-> exists l1 l2, l = l1 ++ x :: l2 /\ (x ∉ l1) /\ l' = l1 ++ l2.
Proof.
  revert l'. induction l as [|y l IH]; intros l'; cbn.
  - split; [done|]. intros (l1 & l2 & Heq & _). by destruct l1.
  - case_decide as Hy.
    + subst. split.
      * intros [= <-]. exists [], l. split_and!; [done| |done].
        apply not_elem_of_nil.
      * intros ([|z l1] & l2 & Heq & Hnotin & ->); cbn in *.
        -- by injection Heq as ->.
        -- injection Heq as -> _. destruct Hnotin. by left.
    + destruct (py_remove x l) as [r|] eqn:Hr.
      * split.
        -- intros [= <-].
           destruct (proj1 (IH r) eq_refl) as (l1 & l2 & -> & Hnotin & ->).
           exists (y :: l1), l2. split_and!; [done| |done].
           rewrite not_elem_of_cons. split; [congruence|done].
        -- intros ([|z l1] & l2 & Heq & Hnotin & ->); cbn in *.
           ++ injection Heq as -> _. done.
           ++ injection Heq as -> ->. f_equal.
              apply not_elem_of_cons in Hnotin as [_ Hnotin].
              assert (Hsome : Some r = Some (l1 ++ l2)); [|congruence].
              apply IH. by exists l1, l2.
      * split; [done|].
        intros ([|z l1] & l2 & Heq & Hnotin & ->); cbn in *.
        -- injection Heq as -> _. done.
        -- injection Heq as -> ->.
           apply py_remove_None in Hr. destruct Hr.
           apply elem_of_app. right. by left.
Qed.
End Remove.

(** The listener never raises; it leaves the world with the window's
    active task taken out of [tasks] and the window out of [windows]. *)
Lemma _on_window_closed_eq (σ : World) (w : WindowRef) :
  _on_window_closed w σ
  = GUIApplication_on_window_closed w
      (with_app (with_tasks (tasks_after_close σ w)) σ).
Proof.
  unfold _on_window_closed, tasks_after_close, bind, gets.
  destruct (getattr_active_task σ w) as [task|]; cbn [py_in].
  - case_bool_decide as Hin.
    + destruct (py_remove task (tasks (app σ))) as [l|] eqn:Hl; [done|].
      apply py_remove_None in Hl. done.
    + apply py_remove_None in Hin. rewrite Hin. cbn.
      by destruct σ as [[] ? ? ?].
  - cbn. by destruct σ as [[] ? ? ?].
Qed.

Section WindowClosed.
Implicit Types (σ : World) (w : WindowRef) (task : TaskRef).

Lemma tasks_after_close_removed σ w task :
  getattr_active_task σ w = Some task ->
  task ∈ tasks (app σ) ->
  exists l1 l2,
    tasks (app σ) = l1 ++ task :: l2
    /\ (task ∉ l1)
    /\ tasks_after_close σ w = l1 ++ l2.
Proof.
  intros Hw Hin. unfold tasks_after_close. rewrite Hw.
  destruct (py_remove task (tasks (app σ))) as [l|] eqn:Hl.
  - apply py_remove_Some in Hl as (l1 & l2 & ? & ? & ?). by exists l1, l2.
  - by apply py_remove_None in Hl.
Qed.

Lemma tasks_after_close_absent σ w :
  (forall task, getattr_active_task σ w = Some task ->
                task ∉ tasks (app σ)) ->
  tasks_after_close σ w = tasks (app σ).
Proof.
  intros Habsent. unfold tasks_after_close.
  destruct (getattr_active_task σ w) as [task|]; [|done].
  by destruct (py_remove task (tasks (app σ))) eqn:Hl;
    [apply py_remove_Some in Hl as (l1 & l2 & Heq & _);
     destruct (Habsent task eq_refl); rewrite Heq;
     apply elem_of_app; right; left|].
Qed.



End WindowClosed.




(** ** The [tasks] list is only ever shortened *)

(** C10. Neither [create_task] nor [create_window] (nor [_create_windows])
    changes the application's [tasks] list, however the call ends; the
    window-closed listener is the only operation that changes it, and what
    it does is a removal of one element; so no operation of the module
    appends a new task to [tasks]. *)
Theorem tasks_list_frame (σ : World) :
  (forall id, tasks (app (snd (create_task id σ))) = tasks (app σ))
  /\ (forall layout kwargs,
        tasks (app (snd (create_window layout kwargs σ))) = tasks (app σ))
  /\ tasks (app (snd (_create_windows σ))) = tasks (app σ)
  /\ tasks (app (snd (active_task σ))) = tasks (app σ)
  /\ (forall w,
        tasks (app (snd (_on_window_closed w σ))) = tasks (app σ)
        \/ exists l1 task l2,
             tasks (app σ) = l1 ++ task :: l2
             /\ tasks (app (snd (_on_window_closed w σ))) = l1 ++ l2).
Proof.
  set (P := fun σ' : World => tasks (app σ') = tasks (app σ)).
  assert (Hactive : forall w, preserves P (set_active_window w)).
  { intros w σ0. unfold P, set_active_window, modify. cbn.
    by case_decide. }
  split_and!.
  - intros id. by apply (create_task_preserves P).
  - intros layout kwargs. by apply (create_window_preserves P).
  - by apply (_create_windows_preserves P).
  - unfold active_task. by destruct (_traits_cache_active_task (app σ)).
  - intros w. rewrite _on_window_closed_eq. cbn.
    destruct (getattr_active_task σ w) as [task|] eqn:Hw.
    + destruct (decide (task ∈ tasks (app σ))) as [Hin|Hin].
      * right.
        destruct (tasks_after_close_removed σ w task Hw Hin)
          as (l1 & l2 & ? & _ & ?).
        by exists l1, task, l2.
      * left. apply tasks_after_close_absent. congruence.
    + left. apply tasks_after_close_absent. congruence.
Qed.

(** ** The derived property [active_task] *)

Section ActiveTask.
Implicit Types (σ : World) (w : WindowRef).

(** [cache_ok] only looks at the cache, the active window and the
    windows' active tasks. *)
Lemma cache_ok_same σ σ' :
  _traits_cache_active_task (app σ') = _traits_cache_active_task (app σ) ->
  active_window (app σ') = active_window (app σ) ->
  (forall w, getattr_active_task σ' w = getattr_active_task σ w) ->
  cache_ok σ -> cache_ok σ'.
Proof.
  unfold cache_ok, _get_active_task. intros -> -> Hget.
  destruct (_traits_cache_active_task (app σ)); [|done].
  intros ->. by destruct (active_window (app σ)).
Qed.

Lemma getattr_alter σ w w0 (f : TaskWindow.t -> TaskWindow.t) :
  (forall wo, TaskWindow.active_task (f wo) = TaskWindow.active_task wo) ->
  getattr_active_task
    (with_window_heap (alter f w (window_heap σ)) σ) w0
  = getattr_active_task σ w0.
Proof.
  intros Hf. unfold getattr_active_task. cbn.
  rewrite lookup_alter. case_decide; [subst|done].
  destruct (window_heap σ !! w0); cbn; [apply Hf|done].
Qed.

Lemma getattr_new_window σ w0 :
  getattr_active_task
    (with_window_heap
       (<[fresh (dom (window_heap σ)) := TaskWindow.bare]> (window_heap σ))
       σ) w0
  = getattr_active_task σ w0.
Proof.
  unfold getattr_active_task. cbn.
  rewrite lookup_insert. case_decide; [subst|done].
  by rewrite fresh_window_ref.
Qed.

Lemma set_active_window_cache_ok (window : option WindowRef) :
  preserves cache_ok (set_active_window window).
Proof.
  intros σ Hok. unfold set_active_window, modify. cbn.
  by case_decide.
Qed.

Lemma window_set_active_task_cache_ok w task :
  preserves cache_ok (window_set_active_task w task).
Proof.
  intros σ Hok. unfold window_set_active_task, modify. cbn.
  case_decide as Hactive; [done|].
  revert Hok. unfold cache_ok, _get_active_task, getattr_active_task. cbn.
  destruct (_traits_cache_active_task (app σ)); [|done].
  destruct (active_window (app σ)) as [w0|]; [|done].
  rewrite lookup_alter_ne; [done|congruence].
Qed.

Lemma active_task_cache_ok : preserves cache_ok active_task.
Proof.
  intros σ Hok. unfold active_task.
  destruct (_traits_cache_active_task (app σ)) eqn:Hc; [done|].
  unfold cache_ok. cbn. done.
Qed.

Lemma _on_window_closed_cache_ok w : preserves cache_ok (_on_window_closed w).
Proof.
  intros σ. rewrite _on_window_closed_eq. by apply cache_ok_same.
Qed.

Lemma step_cache_ok op σ : cache_ok σ -> cache_ok (step op σ).
Proof.
  assert (Hheap : forall h σ0, cache_ok σ0 -> cache_ok (with_task_heap h σ0))
    by (intros; by eapply cache_ok_same).
  assert (Hlog : forall l σ0, cache_ok σ0 -> cache_ok (with_log l σ0))
    by (intros; by eapply cache_ok_same).
  assert (Hnew : forall σ0, cache_ok σ0 ->
            cache_ok (with_window_heap
                        (<[fresh (dom (window_heap σ0)) := TaskWindow.bare]>
                           (window_heap σ0)) σ0)).
  { intros σ0. apply cache_ok_same; [done..|]. apply getattr_new_window. }
  assert (Hadd : forall w task σ0, cache_ok σ0 ->
            cache_ok (with_window_heap
                        (alter (TaskWindow.add_task task) w (window_heap σ0))
                        σ0)).
  { intros w task σ0. apply cache_ok_same; [done..|].
    intros w0. by apply getattr_alter. }
  assert (Hlay : forall w layout σ0, cache_ok σ0 ->
            cache_ok (with_window_heap
                        (alter (TaskWindow.set_window_layout layout) w
                           (window_heap σ0)) σ0)).
  { intros w layout σ0. apply cache_ok_same; [done..|].
    intros w0. by apply getattr_alter. }
  destruct op; cbn [step].
  - by apply create_task_preserves.
  - apply create_window_preserves;
      auto using set_active_window_cache_ok.
  - apply _create_windows_preserves;
      auto using set_active_window_cache_ok.
  - apply _on_window_closed_cache_ok.
  - apply set_active_window_cache_ok.
  - apply window_set_active_task_cache_ok.
  - apply active_task_cache_ok.
  - done.
Qed.

Lemma run_cache_ok ops : forall σ, cache_ok σ -> cache_ok (run ops σ).
Proof.
  induction ops as [|op ops IH]; intros σ Hok; [done|].
  cbn. apply IH. by apply step_cache_ok.
Qed.

(** With a sound cache, a read gives what the getter computes. *)
Lemma active_task_read σ :
  cache_ok σ -> fst (active_task σ) = Returned (_get_active_task σ).
Proof.
  unfold cache_ok, active_task.
  destruct (_traits_cache_active_task (app σ)); [by intros ->|done].
Qed.

Lemma getter_after_set_active_window σ (window : option WindowRef) :
  _get_active_task (snd (set_active_window window σ))
  = match window with
    | Some w => getattr_active_task σ w
    | None => None
    end.
Proof.
  unfold _get_active_task, set_active_window, modify. cbn.
  case_decide as Hw; [by rewrite Hw|done].
Qed.

Lemma getter_after_window_set_active_task σ w wo task :
  active_window (app σ) = Some w ->
  window_heap σ !! w = Some wo ->
  _get_active_task (snd (window_set_active_task w task σ)) = task.
Proof.
  intros Hw Hwo.
  unfold _get_active_task, getattr_active_task, window_set_active_task,
    modify. cbn.
  rewrite decide_True by done. cbn. rewrite Hw.
  by rewrite lookup_alter_eq, Hwo.
Qed.
End ActiveTask.

(** C4. In every state the application reaches, reading [active_task]
    gives the active window's active task when there is an active window,
    and [None] when there is none: cached values do not survive a change
    of the active window or of its active task.  In particular, right
    after [active_window] is set to a window whose active task is [T], the
    read gives [T].  Assigning to [active_task] raises and changes
    nothing. *)
Theorem active_task_follows_active_window (σ : World) (ops : list Op)
    (Hok : cache_ok σ) :
  fst (active_task (run ops σ))
  = Returned
      match active_window (app (run ops σ)) with
      | Some w =>
          match window_heap (run ops σ) !! w with
          | Some wo => TaskWindow.active_task wo
          | None => None
          end
      | None => None
      end
  /\ (forall w T,
        getattr_active_task (run ops σ) w = Some T ->
        fst (active_task (snd (set_active_window (Some w) (run ops σ))))
        = Returned (Some T))
  /\ (forall w T,
        active_window (app (run ops σ)) = Some w ->
        fst (active_task
               (snd (window_set_active_task w (Some T) (run ops σ))))
        = Returned (Some T)
           \/ window_heap (run ops σ) !! w = None)
  /\ (fst (active_task (snd (set_active_window None (run ops σ))))
      = Returned None)
  /\ (forall task,
        exists e, set_active_task task (run ops σ) = (Raised e, run ops σ)).
Proof.
  pose proof (run_cache_ok ops σ Hok) as Hrun.
  split_and!.
  - by rewrite active_task_read.
  - intros w T HT.
    rewrite active_task_read by by apply set_active_window_cache_ok.
    by rewrite getter_after_set_active_window, HT.
  - intros w T Hw.
    destruct (window_heap (run ops σ) !! w) as [wo|] eqn:Hwo; [left|by right].
    rewrite active_task_read by by apply window_set_active_task_cache_ok.
    by erewrite getter_after_window_set_active_task.
  - rewrite active_task_read by by apply set_active_window_cache_ok.
    by rewrite getter_after_set_active_window.
  - intros task. by eexists.
Qed.

Example switching_ops_cached_before :
  _traits_cache_active_task
    (app (run (take 6 switching_ops) (new_app [factory_a] [layout_ab])))
  = Some (Some 0).
Proof. vm_compute. reflexivity. Qed.

Lemma active_task_follows_active_window_witness :
  cache_ok (new_app [factory_a] [layout_ab])
  /\ fst (active_task (run switching_ops (new_app [factory_a] [layout_ab])))
     = Returned (Some 5).
Proof.
  assert (Hok : cache_ok (new_app [factory_a] [layout_ab])) by exact I.
  split; [exact Hok|].
  rewrite (proj1 (active_task_follows_active_window
                    (new_app [factory_a] [layout_ab]) switching_ops Hok)).
  vm_compute. reflexivity.
Defined.

(** ** Default extra actions *)

(** C9. The default [extra_actions] is a fixed list of six additions, in
    this order: close-active-window, exit, task-toggle group,
    dock-pane-toggle group, task-window-toggle group, about.  It has
    exactly one exit action, placed [last] in the close group, and exactly
    one dock-pane-toggle group, which is the entry right after the
    task-toggle group and is declared [after] it on the same path.  The
    close, exit, window-toggle and about entries are bound to the
    application; the two view groups take no application. *)
Theorem extra_actions_default_spec (self : AppRef) :
  map (fun a => action_class (SchemaAddition.factory a))
    (_extra_actions_default self)
  = [CloseActiveWindowAction; ExitAction; TaskToggleGroup;
     DockPaneToggleGroup; TaskWindowToggleGroup; AboutAction]
  /\ of_class ExitAction (_extra_actions_default self)
     = [ {| SchemaAddition.id := "exit_action";
            SchemaAddition.factory := partial ExitAction self;
            SchemaAddition.path := "MenuBar/File/close_group";
            SchemaAddition.after := None;
            SchemaAddition.absolute_position := Some "last" |} ]
  /\ of_class DockPaneToggleGroup (_extra_actions_default self)
     = [ {| SchemaAddition.id := "DockPaneToggleGroup";
            SchemaAddition.factory := bare DockPaneToggleGroup;
            SchemaAddition.path := "MenuBar/View";
            SchemaAddition.after := Some "TaskToggleGroup";
            SchemaAddition.absolute_position := None |} ]
  /\ (exists i group panes,
        _extra_actions_default self !! i = Some group
        /\ _extra_actions_default self !! S i = Some panes
        /\ action_class (SchemaAddition.factory group) = TaskToggleGroup
        /\ action_class (SchemaAddition.factory panes) = DockPaneToggleGroup
        /\ SchemaAddition.after panes = Some (SchemaAddition.id group)
        /\ SchemaAddition.path panes = SchemaAddition.path group)
  /\ map SchemaAddition.path
       (of_class CloseActiveWindowAction (_extra_actions_default self)
        ++ of_class ExitAction (_extra_actions_default self))
     = ["MenuBar/File/close_group"; "MenuBar/File/close_group"]
  /\ map (fun a => application (SchemaAddition.factory a))
       (_extra_actions_default self)
     = [Some self; Some self; None; None; Some self; Some self]
  /\ map SchemaAddition.absolute_position (_extra_actions_default self)
     = [None; Some "last"; None; None; None; None]
  /\ map SchemaAddition.after (_extra_actions_default self)
     = [None; None; None; Some "TaskToggleGroup"; None; None].
Proof.
  split_and!; try reflexivity.
  eexists 2, _, _. by split_and!.
Qed.


(** * Further properties *)

(** ** Registering factories *)

(** X1. The lookup over two lists of factories put end to end is the lookup
    in the first, and the lookup in the second when the first has no factory
    with the id.  So a factory registered at the end never changes what an
    already registered id resolves to and takes the ids that had no factory,
    while a factory registered at the front takes its own id. *)
Theorem get_task_factory_loop_app (fs1 fs2 : list TaskFactory.t)
    (g : TaskFactory.t) (id : string) :
  _get_task_factory_loop (fs1 ++ fs2) id
  = match _get_task_factory_loop fs1 id with
    | Some f => Some f
    | None => _get_task_factory_loop fs2 id
    end
  /\ (registered fs1 id ->
      _get_task_factory_loop (fs1 ++ [g]) id = _get_task_factory_loop fs1 id)
  /\ (~ registered fs1 id -> TaskFactory.id g = id ->
      _get_task_factory_loop (fs1 ++ [g]) id = Some g)
  /\ _get_task_factory_loop (g :: fs1) (TaskFactory.id g) = Some g.
Proof.
  assert (Happ : forall l,
            _get_task_factory_loop (fs1 ++ l) id
            = match _get_task_factory_loop fs1 id with
              | Some f => Some f
              | None => _get_task_factory_loop l id
              end).
  { intros l. induction fs1 as [|f fs1 IH]; [done|]. cbn.
    by destruct (String.eqb (TaskFactory.id f) id). }
  split_and!.
  - apply Happ.
  - intros [f Hf]%registered_lookup. by rewrite Happ, Hf.
  - intros Hnot Hg. rewrite Happ.
    destruct (_get_task_factory_loop fs1 id) as [f|] eqn:Hf.
    + destruct Hnot. apply registered_lookup. by eexists.
    + cbn. by rewrite (proj2 (String.eqb_eq _ _) Hg).
  - cbn. by rewrite String.eqb_refl.
Qed.

(** ** What [create_task] leaves alone *)

Section CreateTaskFrame.
Implicit Types (σ : World) (id : string).

End CreateTaskFrame.




(** X4. A factory whose callable behaves like a Task class, taking the
    task's id from the [id] keyword, gives every task it creates through
    [create_task] the factory's own id, which is the id that was asked
    for. *)
Theorem created_task_has_requested_id (σ : World) (id : string)
    (f : TaskFactory.t)
    (Hfirst : first_with_id (task_factories (app σ)) id f)
    (Hclass : takes_id_keyword f) :
  exists r σ' task,
    create_task id σ = (Returned (Some r), σ')
    /\ task_heap σ' !! r = Some task
    /\ Task.id task = id
    /\ Task.id task = TaskFactory.id f.
Proof.
  destruct (Hclass [("id", TaskFactory.id f)]) as (obj & Hobj & Hid).
  assert (Hf : TaskFactory.id f = id).
  { by destruct Hfirst as (? & ? & _ & ? & _). }
  apply lookup_loop_Some in Hfirst.
  exists (fresh (dom (task_heap σ))). eexists. exists (with_hooks (app σ) obj).
  split; [exact (create_task_returned_eq σ id f obj Hfirst Hobj)|].
  split; [cbn; apply lookup_insert_eq|].
  cbn. rewrite Hid. cbn. by rewrite Hf.
Qed.

Lemma created_task_has_requested_id_witness :
  takes_id_keyword factory_c
  /\ exists r σ' task,
       create_task "c" (new_app [factory_a; factory_c] [])
       = (Returned (Some r), σ')
       /\ task_heap σ' !! r = Some task
       /\ Task.id task = "c"
       /\ Task.id task = TaskFactory.id factory_c.
Proof.
  assert (Hclass : takes_id_keyword factory_c).
  { intros traits. by eexists. }
  split; [exact Hclass|].
  apply (created_task_has_requested_id
           (new_app [factory_a; factory_c] []) "c" factory_c); [|exact Hclass].
  apply lookup_loop_Some. reflexivity.
Defined.

(** ** Closing windows again, and in another order *)

Section Discard.
Implicit Types (x y : TaskRef) (l : list TaskRef).







End Discard.





(** ** A factory that fails while a window is populated *)

Section Failure.
Implicit Types (σ : World) (w : WindowRef) (e : exn).

Lemma create_window_loop_app w (ids1 ids2 : list string) : forall σ,
  create_window_loop w (ids1 ++ ids2) σ
  = match create_window_loop w ids1 σ with
    | (Returned _, σ1) => create_window_loop w ids2 σ1
    | (Raised e, σ1) => (Raised e, σ1)
    end.
Proof.
  induction ids1 as [|id ids1 IH]; intros σ; [done|].
  rewrite <- app_comm_cons. cbn [create_window_loop]. unfold bind.
  destruct (create_task id σ) as [[[task|]|e] σ1];
    cbn [on_window logger_error modify]; [apply IH..|done].
Qed.

Lemma _create_windows_loop_app (l1 l2 : list TaskWindowLayout.t) : forall σ,
  _create_windows_loop (l1 ++ l2) σ
  = match _create_windows_loop l1 σ with
    | (Returned _, σ1) => _create_windows_loop l2 σ1
    | (Raised e, σ1) => (Raised e, σ1)
    end.
Proof.
  induction l1 as [|layout l1 IH]; intros σ; [done|].
  rewrite <- app_comm_cons. cbn [_create_windows_loop]. unfold bind.
  destruct (create_window (Some layout) [] σ) as [[window|e] σ1]; [|done].
  cbn [set_active_window modify]. apply IH.
Qed.

(** [create_window] with a layout, in terms of its loop. *)
Lemma create_window_Some_unfold σ layout kwargs :
  create_window (Some layout) kwargs σ
  = match create_window_loop (fresh (dom (window_heap σ)))
            (TaskWindowLayout.get_tasks layout)
            (with_window_heap
               (<[fresh (dom (window_heap σ)) := TaskWindow.bare]>
                  (window_heap σ)) σ) with
    | (Returned _, σ2) =>
        (Returned (fresh (dom (window_heap σ))),
         with_window_heap
           (alter (TaskWindow.set_window_layout layout)
              (fresh (dom (window_heap σ))) (window_heap σ2)) σ2)
    | (Raised e, σ2) => (Raised e, σ2)
    end.
Proof.
  unfold create_window, bind at 1, GUIApplication_create_window.
  unfold bind. by destruct (create_window_loop _ _ _) as [[[]|e] σ2].
Qed.

(** The loop when the id after [before] resolves to a factory whose
    callable raises: the ids of [before] have been processed, the rest is
    not looked at. *)
Lemma create_window_loop_failure σ w wo before id rest f e :
  window_heap σ !! w = Some wo ->
  factories_build (task_factories (app σ)) before ->
  first_with_id (task_factories (app σ)) id f ->
  TaskFactory.factory f [("id", TaskFactory.id f)] = Raised e ->
  exists rs σ',
    create_window_loop w (before ++ id :: rest) σ = (Raised e, σ')
    /\ app σ' = app σ
    /\ window_heap σ'
       = <[w := {| TaskWindow.tasks := TaskWindow.tasks wo ++ rs;
                   TaskWindow.active_task := TaskWindow.active_task wo;
                   TaskWindow.layout := TaskWindow.layout wo |}]>
           (window_heap σ)
    /\ log σ'
       = log σ ++ flat_map missing_factory_records
                    (filter
                       (fun id => ~ registered (task_factories (app σ)) id)
                       before)
    /\ task_heap σ ⊆ task_heap σ'
    /\ length rs
       = length (filter (registered (task_factories (app σ))) before).
Proof.
  intros Hw Hbuild Hf He.
  destruct (create_window_loop_spec before σ w wo Hw Hbuild)
    as (rs & σ' & Hrun & Happ & Hwh & Hlog & Hsub & _ & _ & Hall).
  exists rs, σ'. rewrite create_window_loop_app, Hrun.
  cbn [create_window_loop]. unfold bind at 1.
  apply lookup_loop_Some in Hf.
  rewrite (create_task_raised_eq σ' id f e); [|by rewrite Happ|done].
  split_and!; try done. symmetry. by apply Forall2_length in Hall.
Qed.

(** What a failing [create_window] leaves, as far as later windows are
    concerned. *)
Lemma create_window_failure_run σ layout kwargs before id rest f e :
  TaskWindowLayout.get_tasks layout = before ++ id :: rest ->
  factories_build (task_factories (app σ)) before ->
  first_with_id (task_factories (app σ)) id f ->
  TaskFactory.factory f [("id", TaskFactory.id f)] = Raised e ->
  exists rs σ',
    create_window (Some layout) kwargs σ = (Raised e, σ')
    /\ app σ' = app σ
    /\ window_heap σ'
       = <[fresh (dom (window_heap σ)) :=
             {| TaskWindow.tasks := rs;
                TaskWindow.active_task := None;
                TaskWindow.layout := None |}]> (window_heap σ).
Proof.
  intros Hids Hbuild Hf He. rewrite create_window_Some_unfold, Hids.
  set (w := fresh (dom (window_heap σ))).
  set (σ1 := with_window_heap _ σ).
  destruct (create_window_loop_failure σ1 w TaskWindow.bare
              before id rest f e)
    as (rs & σ' & Hrun & Happ & Hwh & _); try done.
  { subst σ1. cbn. apply lookup_insert_eq. }
  exists rs, σ'. rewrite Hrun. subst σ1. cbn in *.
  split_and!; [done..|]. by rewrite Hwh, insert_insert_eq.
Qed.
End Failure.



(** X8. When a startup layout names a factory whose callable raises, and
    everything before it builds, [_create_windows] raises that exception.
    The windows of the layouts before the failing one have been created and
    the last of them is the active window; the window of the failing layout
    exists without a layout applied and has not been made active; the
    layouts after it get no window. *)
Theorem create_windows_factory_failure (σ : World)
    (done todo : list TaskWindowLayout.t) (layout : TaskWindowLayout.t)
    (before rest : list string) (id : string) (f : TaskFactory.t) (e : exn)
    (Hlayouts : default_layout (app σ) = done ++ layout :: todo)
    (Hdone : forall l, l ∈ done ->
       factories_build (task_factories (app σ))
         (TaskWindowLayout.get_tasks l))
    (Hids : TaskWindowLayout.get_tasks layout = before ++ id :: rest)
    (Hbefore : factories_build (task_factories (app σ)) before)
    (Hfirst : first_with_id (task_factories (app σ)) id f)
    (Hraise : TaskFactory.factory f [("id", TaskFactory.id f)] = Raised e) :
  exists ws wfail rs σ',
    _create_windows σ = (Raised e, σ')
    /\ Forall2 (created_for (task_factories (app σ)) (window_heap σ'))
         done ws
    /\ window_heap σ' !! wfail
       = Some {| TaskWindow.tasks := rs;
                 TaskWindow.active_task := None;
                 TaskWindow.layout := None |}
    /\ (wfail ∉ ws)
    /\ window_heap σ !! wfail = None
    /\ dom (window_heap σ')
       = {[wfail]} ∪ (list_to_set ws ∪ dom (window_heap σ))
    /\ active_window (app σ')
       = match last ws with
         | Some w => Some w
         | None => active_window (app σ)
         end.
Proof.
  destruct (_create_windows_loop_spec done σ Hdone)
    as (ws & σ1 & Hloop & Hcreated & _ & _ & Hsub & Hdom & Hact & Hsame & _).
  assert (Hfac : task_factories (app σ1) = task_factories (app σ)).
  { by destruct Hsame as (_ & -> & _). }
  destruct (create_window_failure_run σ1 layout [] before id rest f e)
    as (rs & σ' & Hrun & Happ & Hwh); [done|by rewrite Hfac..|done|].
  set (wfail := fresh (dom (window_heap σ1))) in *.
  assert (Hfresh : window_heap σ1 !! wfail = None) by apply fresh_window_ref.
  exists ws, wfail, rs, σ'.
  unfold _create_windows, bind at 1, gets. rewrite Hlayouts.
  rewrite _create_windows_loop_app, Hloop.
  cbn [_create_windows_loop]. unfold bind at 1. rewrite Hrun.
  split_and!; [done| | | | | |].
  - eapply Forall2_impl; [exact Hcreated|].
    intros l w. apply created_for_weaken.
    rewrite Hwh. by apply insert_subseteq.
  - rewrite Hwh. apply lookup_insert_eq.
  - intros Hin. apply not_elem_of_dom in Hfresh. apply Hfresh.
    rewrite Hdom. apply elem_of_union_l. by apply elem_of_list_to_set.
  - eapply lookup_weaken_None; [exact Hfresh|exact Hsub].
  - by rewrite Hwh, dom_insert_L, Hdom.
  - by rewrite Happ, Hact.
Qed.

(** Two startup layouts, the second naming a broken factory: the first
    window is created and stays the active one. *)
Lemma create_windows_factory_failure_witness :
  exists w wfail σ',
    _create_windows
      (new_app [factory_broken; factory_c]
         [TaskWindowLayout.mk ["c"] None None; layout_ab])
    = (Raised (Exception "RuntimeError" "cannot build the task"), σ')
    /\ created_for [factory_broken; factory_c] (window_heap σ')
         (TaskWindowLayout.mk ["c"] None None) w
    /\ w <> wfail
    /\ TaskWindow.layout <$> window_heap σ' !! wfail = Some None
    /\ active_window (app σ') = Some w.
Proof.
  destruct (create_windows_factory_failure
              (new_app [factory_broken; factory_c]
                 [TaskWindowLayout.mk ["c"] None None; layout_ab])
              [TaskWindowLayout.mk ["c"] None None] [] layout_ab
              [] ["b"] "a" factory_broken
              (Exception "RuntimeError" "cannot build the task"))
    as (ws & wfail & rs & σ' & Hrun & Hcreated & Hfail & Hnotin & _ & _
        & Hact).
  - reflexivity.
  - intros l Hl. apply list_elem_of_singleton in Hl as ->.
    intros id f Hin Hf. apply list_elem_of_singleton in Hin as ->.
    apply lookup_loop_Some in Hf. injection Hf as <-. by eexists.
  - reflexivity.
  - intros id f Hin. by apply elem_of_nil in Hin.
  - apply lookup_loop_Some. reflexivity.
  - reflexivity.
  - destruct ws as [|w [|w' ws]];
      try (apply Forall2_length in Hcreated; discriminate Hcreated).
    apply Forall2_cons_1 in Hcreated as [Hw _].
    exists w, wfail, σ'. split_and!; [done..| | |done].
    + intros ->. apply Hnotin. by left.
    + by rewrite Hfail.
Defined.

(** ** Layouts whose ids have no factory, and the default layout *)

Section Filters.
Context {A : Type} (P : A -> Prop) `{!forall x, Decision (P x)}.

Lemma filter_all (l : list A) : (forall x, x ∈ l -> P x) -> filter P l = l.
Proof.
  induction l as [|x l IH]; intros Hall; [done|].
  rewrite filter_cons_True by (apply Hall; by left).
  f_equal. apply IH. intros y Hy. apply Hall. by right.
Qed.

Lemma filter_none (l : list A) :
  (forall x, x ∈ l -> ~ P x) -> filter P l = [].
Proof.
  induction l as [|x l IH]; intros Hnone; [done|].
  rewrite filter_cons_False by (apply Hnone; by left).
  apply IH. intros y Hy. apply Hnone. by right.
Qed.
End Filters.

Section Layouts.
Implicit Types (σ : World) (w : WindowRef).

(** The loop over ids none of which has a factory: a warning and an error
    for each, and nothing else. *)
Lemma create_window_loop_missing w (task_ids : list string) : forall σ,
  (forall id, id ∈ task_ids -> ~ registered (task_factories (app σ)) id) ->
  create_window_loop w task_ids σ
  = (Returned tt,
     with_log (log σ ++ flat_map missing_factory_records task_ids) σ).
Proof.
  induction task_ids as [|id task_ids IH]; intros σ Hnone.
  - cbn. rewrite app_nil_r. by destruct σ.
  - assert (Hf : _get_task_factory (app σ) id = None).
    { destruct (_get_task_factory (app σ) id) as [f|] eqn:Hf; [|done].
      destruct (Hnone id); [by left|].
      apply registered_lookup. unfold _get_task_factory in Hf.
      rewrite Hf. by eexists. }
    cbn [create_window_loop]. unfold bind at 1.
    rewrite (create_task_missing_eq σ id Hf).
    unfold bind at 1. cbn [logger_error modify].
    rewrite IH.
    + cbn. by rewrite <- !app_assoc.
    + intros id' Hin. cbn. apply Hnone. by right.
Qed.

(** What [create_window] does with a layout whose factories build their
    tasks, with the log. *)
Lemma create_window_layout_log σ layout kwargs :
  factories_build (task_factories (app σ))
    (TaskWindowLayout.get_tasks layout) ->
  exists rs σ',
    create_window (Some layout) kwargs σ
    = (Returned (fresh (dom (window_heap σ))), σ')
    /\ window_heap σ'
       = <[fresh (dom (window_heap σ)) :=
             {| TaskWindow.tasks := rs;
                TaskWindow.active_task := None;
                TaskWindow.layout := Some layout |}]> (window_heap σ)
    /\ Forall2 (built_for (app σ) (task_heap σ'))
         (filter (registered (task_factories (app σ)))
            (TaskWindowLayout.get_tasks layout)) rs
    /\ log σ'
       = log σ ++ flat_map missing_factory_records
                    (filter
                       (fun id => ~ registered (task_factories (app σ)) id)
                       (TaskWindowLayout.get_tasks layout))
    /\ app σ' = app σ.
Proof.
  intros Hbuild. rewrite create_window_Some_unfold.
  set (w := fresh (dom (window_heap σ))).
  set (σ1 := with_window_heap _ σ).
  destruct (create_window_loop_spec (TaskWindowLayout.get_tasks layout)
              σ1 w TaskWindow.bare)
    as (rs & σ' & Hrun & Happ & Hwh & Hlog & _ & _ & _ & Hall); try done.
  { subst σ1. cbn. apply lookup_insert_eq. }
  exists rs. eexists. rewrite Hrun. subst σ1. cbn in *.
  split_and!; try done.
  by rewrite Hwh, alter_insert_eq, insert_insert_eq.
Qed.
End Layouts.

(** X9. When no id of the layout has a factory (an empty layout, or an
    application without factories), [create_window] returns a new window
    with no task and the layout applied, creates no task, and logs for
    each id, in order, the warning of [create_task] followed by the error
    naming the id; nothing else changes. *)
Theorem create_window_without_factories (σ : World)
    (layout : TaskWindowLayout.t) (kwargs : Kwargs)
    (Hnone : forall id,
       id ∈ TaskWindowLayout.get_tasks layout ->
       ~ registered (task_factories (app σ)) id) :
  exists w,
    window_heap σ !! w = None
    /\ create_window (Some layout) kwargs σ
       = (Returned w,
          {| app := app σ;
             task_heap := task_heap σ;
             window_heap :=
               <[w := {| TaskWindow.tasks := [];
                         TaskWindow.active_task := None;
                         TaskWindow.layout := Some layout |}]>
                 (window_heap σ);
             log :=
               log σ
               ++ flat_map
                    (fun id =>
                       [{| levelname := WARNING;
                           msg := "Could not find task factory " ++ id;
                           args := [] |};
                        {| levelname := ERROR;
                           msg := "Missing factory for task with ID %r";
                           args := [id] |}])
                    (TaskWindowLayout.get_tasks layout) |}).
Proof.
  exists (fresh (dom (window_heap σ))). split; [apply fresh_window_ref|].
  rewrite create_window_Some_unfold, create_window_loop_missing by done.
  cbn. by rewrite alter_insert_eq.
Qed.

Lemma create_window_without_factories_witness :
  exists w,
    fst (create_window (Some layout_ab) [] (new_app [] [])) = Returned w
    /\ log (snd (create_window (Some layout_ab) [] (new_app [] [])))
       = missing_factory_records "a" ++ missing_factory_records "b".
Proof.
  destruct (create_window_without_factories (new_app [] []) layout_ab [])
    as (w & _ & Hrun).
  - intros id _ (f & Hin & _). by apply elem_of_nil in Hin.
  - exists w. by rewrite Hrun.
Defined.

(** X10. An application started with the default layout of its factories,
    whose first factory (if any) builds its task, comes up with exactly one
    new window, which is made the active window: it holds one task, built
    by the first registered factory, or no task when no factory is
    registered.  Nothing is logged: the default layout never names an id
    without a factory. *)
Theorem default_startup (σ : World)
    (Hdefault : default_layout (app σ) = _default_layout_default (app σ))
    (Hbuild : forall f,
       head (task_factories (app σ)) = Some f ->
       exists obj,
         TaskFactory.factory f [("id", TaskFactory.id f)] = Returned obj) :
  exists w rs σ',
    _create_windows σ = (Returned tt, σ')
    /\ window_heap σ !! w = None
    /\ window_heap σ'
       = <[w := {| TaskWindow.tasks := rs;
                   TaskWindow.active_task := None;
                   TaskWindow.layout :=
                     Some {| TaskWindowLayout.items :=
                               TaskFactory.id <$> take 1 (task_factories (app σ));
                             TaskWindowLayout.position := None;
                             TaskWindowLayout.size := None |} |}]>
           (window_heap σ)
    /\ Forall2
         (fun f r => exists obj,
            TaskFactory.factory f [("id", TaskFactory.id f)] = Returned obj
            /\ task_heap σ' !! r = Some (with_hooks (app σ) obj))
         (take 1 (task_factories (app σ))) rs
    /\ log σ' = log σ
    /\ active_window (app σ') = Some w.
Proof.
  set (layout := {| TaskWindowLayout.items :=
                      TaskFactory.id <$> take 1 (task_factories (app σ));
                    TaskWindowLayout.position := None;
                    TaskWindowLayout.size := None |}).
  assert (Hlayouts : default_layout (app σ) = [layout]).
  { rewrite Hdefault. unfold _default_layout_default, layout.
    by destruct (task_factories (app σ)). }
  assert (Hresolve : forall id,
            id ∈ TaskWindowLayout.get_tasks layout ->
            exists f, head (task_factories (app σ)) = Some f
                      /\ TaskFactory.id f = id
                      /\ _get_task_factory (app σ) id = Some f).
  { intros id. unfold layout, _get_task_factory. cbn.
    destruct (task_factories (app σ)) as [|f fs]; cbn.
    - intros Hin. by apply elem_of_nil in Hin.
    - intros Hin%list_elem_of_singleton. subst id. exists f.
      by rewrite String.eqb_refl. }
  assert (Hreg : forall id,
            id ∈ TaskWindowLayout.get_tasks layout ->
            registered (task_factories (app σ)) id).
  { intros id (f & _ & _ & Hf)%Hresolve. apply registered_lookup.
    unfold _get_task_factory in Hf. rewrite Hf. by eexists. }
  destruct (create_window_layout_log σ layout [])
    as (rs & σ1 & Hrun & Hwh & Hall & Hlog & Happ).
  { intros id f' Hin Hf'. destruct (Hresolve id Hin) as (f & Hhead & _ & Hf).
    apply lookup_loop_Some in Hf'. unfold _get_task_factory in Hf.
    rewrite Hf in Hf'. injection Hf' as <-. by apply Hbuild. }
  rewrite filter_all in Hall by done.
  rewrite filter_none in Hlog by (intros id Hin Hnot; by apply Hnot, Hreg).
  destruct (set_active_window_eq σ1 (fresh (dom (window_heap σ))))
    as (σ2 & Hset & Hactive & _ & Hth & Hwh2 & Hlog2).
  exists (fresh (dom (window_heap σ))), rs, σ2.
  unfold _create_windows, bind at 1, gets. rewrite Hlayouts.
  cbn [_create_windows_loop]. unfold bind at 1. rewrite Hrun.
  unfold bind at 1. rewrite Hset. cbn [ret].
  split_and!; [done|apply fresh_window_ref|by rewrite Hwh2| |
               |done].
  - rewrite Hth. clear -Hall. unfold layout in Hall. cbn in Hall.
    destruct (task_factories (app σ)) as [|f fs] eqn:Hfs; cbn in *.
    + apply Forall2_nil_inv_l in Hall as ->. constructor.
    + destruct rs as [|r [|r' rs]];
        try (apply Forall2_length in Hall; discriminate Hall).
      apply Forall2_cons_1 in Hall as [(f' & obj & Hf' & Hobj & Hr) _].
      constructor; [|constructor].
      assert (Hhead : _get_task_factory_loop (f :: fs) (TaskFactory.id f)
                      = Some f).
      { cbn [_get_task_factory_loop]. by rewrite String.eqb_refl. }
      apply lookup_loop_Some in Hf'. rewrite Hfs, Hhead in Hf'.
      injection Hf' as <-. by exists obj.
  - rewrite Hlog2, Hlog. cbn. apply app_nil_r.
Qed.

Lemma default_startup_witness :
  exists w r σ',
    _create_windows (default_app [factory_c; factory_a]) = (Returned tt, σ')
    /\ TaskWindow.tasks <$> window_heap σ' !! w = Some [r]
    /\ Task.id <$> task_heap σ' !! r = Some "c"
    /\ log σ' = []
    /\ active_window (app σ') = Some w.
Proof.
  destruct (default_startup (default_app [factory_c; factory_a]))
    as (w & rs & σ' & Hrun & _ & Hwh & Hall & Hlog & Hact).
  - reflexivity.
  - intros f [= <-]. by eexists.
  - cbn in Hall.
    destruct rs as [|r [|r' rs]];
      try (apply Forall2_length in Hall; discriminate Hall).
    apply Forall2_cons_1 in Hall as [(obj & Hobj & Hr) _].
    injection Hobj as <-.
    exists w, r, σ'. split_and!; [done| | |done..].
    + by rewrite Hwh, lookup_insert_eq.
    + by rewrite Hr.
Defined.

(** ** Tasks and the windows they are attached to *)

Section WellAttached.
Implicit Types (σ : World) (w : WindowRef) (r : TaskRef).









End WellAttached.


